(** * FreeBody: the free-body-diagram renderer [draw_fbd] of [src/app.py]

    Shallow embedding of [draw_fbd] and of the helpers it calls.  Python
    floats are modelled as real numbers ([R]); [np.cos], [np.sin], [np.exp]
    and [np.radians] as [cos], [sin], [exp] and [x * PI / 180].  The
    matplotlib figure is modelled as an explicit [Scene] value (the list of
    patches, arrows and texts added to the axes, with title, caption and
    axis limits), the Streamlit messages ([st.warning], [st.error]) as a list
    of [StMsg], and Python exceptions as the [inl] side of [res]. *)

From Stdlib Require Import Reals Lra Lia List String Ascii ZArith.
Import ListNotations.
Local Open Scope string_scope.
Local Open Scope R_scope.

(** ** Exceptions and the error monad *)

(** The exceptions [draw_fbd] can raise on its inputs: [KeyError] from a
    [direction_map] lookup, [IndexError] from indexing one of the parallel
    lists [directions], [labels], [colors], [angles]. *)
Inductive PyError :=
| KeyError (key : string)
| IndexError.

Definition res (A : Type) : Type := (PyError + A)%type.

Definition ret {A} (a : A) : res A := inr a.

Definition bind {A B} (m : res A) (k : A -> res B) : res B :=
  match m with
  | inl e => inl e
  | inr a => k a
  end.

Notation "x <- m ;; k" := (bind m (fun x => k))
  (at level 61, m at next level, right associativity).

(** [xs[i]] for [0 <= i]: [IndexError] past the end. *)
Definition py_index {A} (xs : list A) (i : nat) : res A :=
  match nth_error xs i with
  | Some a => inr a
  | None => inl IndexError
  end.

(** ** Streamlit messages and images *)

Inductive StMsg :=
| StWarning (text : string)
| StError (text : string).

(** A PIL image: an opened file of the given size, or the result of
    [ImageOps.contain] fitting it into a bounding box. *)
Inductive PilImage :=
| Opened (width height : Z)
| Contained (img : PilImage) (max_width max_height : Z).

(** An uploaded file: one PIL can identify (with its pixel size), or one
    that raises [UnidentifiedImageError]. *)
Inductive UploadedFile :=
| Decodable (width height : Z)
| Undecodable.

(** [preprocess_image]; [ImageOps.exif_transpose] does not change what is
    modelled here and is left out. *)
Definition preprocess_image (f : UploadedFile) : option PilImage * list StMsg :=
  match f with
  | Undecodable =>
      (None, [StError "Failed to load the image. Please upload a valid image file."])
  | Decodable w h =>
      if (100000000 <? w * h)%Z
      then (Some (Contained (Opened w h) 800 800),
            [StWarning "Image is too large; resizing to prevent errors."])
      else (Some (Opened w h), [])
  end.

(** ** Scene: what [draw_fbd] adds to the figure *)

Inductive Prim :=
| PRect (x y width height : R) (color : string)              (* plt.Rectangle, fill=False *)
| PImage (img : PilImage) (x0 x1 y0 y1 : R)                   (* ax.imshow(img, extent=...) *)
| PArrow (x y dx dy head_width head_length : R) (color : string) (* ax.arrow *)
| PText (x y : R) (text : string) (fontsize : R) (color : string). (* ax.text *)

Record Scene := mkScene {
  prims : list Prim;
  title : string;
  caption : string;
  xlim : R * R;
  ylim : R * R
}.

(** The arrows of a scene, in drawing order. *)
Definition arrow_of (p : Prim) : option (R * R * R * R) :=
  match p with
  | PArrow x y dx dy _ _ _ => Some (x, y, dx, dy)
  | _ => None
  end.

Fixpoint scene_arrows (ps : list Prim) : list (R * R * R * R) :=
  match ps with
  | [] => []
  | p :: ps' =>
      match arrow_of p with
      | Some a => a :: scene_arrows ps'
      | None => scene_arrows ps'
      end
  end.

(** The anchors of the texts of a scene, in drawing order. *)
Definition text_of (p : Prim) : option (R * R) :=
  match p with
  | PText x y _ _ _ => Some (x, y)
  | _ => None
  end.

Fixpoint scene_texts (ps : list Prim) : list (R * R) :=
  match ps with
  | [] => []
  | p :: ps' =>
      match text_of p with
      | Some t => t :: scene_texts ps'
      | None => scene_texts ps'
      end
  end.

(** ** Direction mapping *)

(** [direction_map = {"Up": (0, 1), "Down": (0, -1), "Left": (-1, 0), "Right": (1, 0)}] *)
Definition direction_map (d : string) : option (R * R) :=
  if string_dec d "Up" then Some (0, 1)
  else if string_dec d "Down" then Some (0, -1)
  else if string_dec d "Left" then Some (-1, 0)
  else if string_dec d "Right" then Some (1, 0)
  else None.

(** [direction_map[d]] *)
Definition direction_lookup (d : string) : res (R * R) :=
  match direction_map d with
  | Some u => inr u
  | None => inl (KeyError d)
  end.

(** ** The force loop of [draw_fbd] *)

(** One drawn force: the arrow [ax.arrow(0, 0, dx, dy, ...)] and its label
    [ax.text(label_x, label_y, text, ...)]. *)
Record LaidOut := mkLaidOut {
  lv_dx : R;
  lv_dy : R;
  lv_label_x : R;
  lv_label_y : R;
  lv_text : string;
  lv_color : string
}.

Section Render.

(** [str] of a Python float, as used by the f-string [f"{force}"]. *)
Variable repr_float : R -> string.

Variables (forces : list (option R)) (directions : list string)
  (labels : list string) (colors : list string)
  (simple_mode angled_mode : bool) (angles : list R).

(** [force = forces[i] if not simple_mode else 1] *)
Definition force_at (i : nat) : res (option R) :=
  if simple_mode then ret (Some 1) else py_index forces i.

(** The displacement [(dx, dy)] of force [i] of magnitude [force]. *)
Definition displacement (i : nat) (force : R) : res (R * R) :=
  if angled_mode then
    a <- py_index angles i ;;
    let angle := a * PI / 180 in
    ret (force * 0.5 * cos angle, force * 0.5 * sin angle)
  else
    d <- py_index directions i ;;
    u <- direction_lookup d ;;
    ret (fst u * force * 0.5, snd u * force * 0.5).

(** [label_offset_x = 0.3 if dx >= 0 else -0.3] *)
Definition label_offset (c : R) : R :=
  if Rge_dec c 0 then 0.3 else -0.3.

(** One iteration of [for i in range(len(forces))]: [None] when the force
    is skipped by [continue]. *)
Definition lay_force (i : nat) : res (option LaidOut) :=
  fo <- force_at i ;;
  match fo with
  | None => ret None
  | Some force =>
      if Rle_dec force 0 then ret None
      else
        d <- displacement i force ;;
        color <- py_index colors i ;;
        label <- py_index labels i ;;
        let dx := fst d in
        let dy := snd d in
        let text := if simple_mode then label
                    else label ++ " (" ++ repr_float force ++ "N)" in
        ret (Some (mkLaidOut dx dy (dx + label_offset dx) (dy + label_offset dy)
                             text color))
  end.

(** Run a loop body over the indices in order, stopping at the first
    exception and keeping the results of the iterations not skipped. *)
Fixpoint collect {A} (f : nat -> res (option A)) (idx : list nat) : res (list A) :=
  match idx with
  | [] => ret []
  | i :: idx' =>
      o <- f i ;;
      rest <- collect f idx' ;;
      ret (match o with Some a => a :: rest | None => rest end)
  end.

Definition layout_forces : res (list LaidOut) :=
  collect lay_force (seq 0 (List.length forces)).

End Render.

(** The two draw calls of one force, in the order the loop makes them. *)
Definition force_prims (l : LaidOut) : list Prim :=
  [PArrow 0 0 (lv_dx l) (lv_dy l) 0.1 0.15 (lv_color l);
   PText (lv_label_x l) (lv_label_y l) (lv_text l) 10 (lv_color l)].

(** [points.append((dx, dy))] *)
Definition points_of (ls : list LaidOut) : list (R * R) :=
  map (fun l => (lv_dx l, lv_dy l)) ls.

(** ** Least dense region *)

(** [np.linspace(start, stop, num)] for [num >= 2]. *)
Definition linspace (start stop : R) (num : nat) : list R :=
  map (fun k => start + INR k * ((stop - start) / INR (num - 1))) (seq 0 num).

Definition grid_x : list R := linspace (-1) 1 10.
Definition grid_y : list R := linspace (-1) 1 10.

(** The candidates in the order of [for gx in grid_x: for gy in grid_y]. *)
Definition grid : list (R * R) :=
  flat_map (fun gx => map (fun gy => (gx, gy)) grid_y) grid_x.

(** [sum(np.exp(-((gx - px)**2 + (gy - py)**2)) for px, py in points)] *)
Definition density (points : list (R * R)) (g : R * R) : R :=
  fold_left (fun acc p => acc + exp (- ((fst g - fst p) ^ 2 + (snd g - snd p) ^ 2)))
            points 0.

(** [density < min_density], where [None] stands for [float('inf')]. *)
Definition lt_min (d : R) (m : option R) : bool :=
  match m with
  | None => true
  | Some m' => if Rlt_dec d m' then true else false
  end.

(** The body of the inner loop, on the state [(min_density, best_position)]. *)
Definition scan_step {A} (score : A -> R) (st : option R * A) (g : A) : option R * A :=
  let d := score g in
  if lt_min d (fst st) then (Some d, g) else st.

Definition least_dense (points : list (R * R)) : R * R :=
  snd (fold_left (scan_step (density points)) grid (None, (0, 0))).

(** ** The whole render *)

(** The object: the uploaded image in [extent=[-0.5, 0.5, -0.5, 0.5]], or
    the default [1.0 x 1.0] rectangle centred at the origin. *)
Definition default_rect : Prim :=
  let rect_size := 1 in PRect (- rect_size / 2) (- rect_size / 2) rect_size rect_size "black".

Definition object_prims (uploaded_image : option UploadedFile) : list Prim * list StMsg :=
  match uploaded_image with
  | None => ([default_rect], [])
  | Some f =>
      match preprocess_image f with
      | (Some img, msgs) => ([PImage img (-0.5) 0.5 (-0.5) 0.5], msgs)
      | (None, msgs) =>
          ([default_rect],
           app msgs [StWarning "Using default diagram since image failed to load."])
      end
  end.

Definition motion_prims (motion_arrow : bool) (motion_direction : string)
  (best : R * R) : res (list Prim) :=
  if motion_arrow then
    u <- direction_lookup motion_direction ;;
    let arrow_length := 0.3 in
    ret [PArrow (fst best) (snd best) (arrow_length * fst u) (arrow_length * snd u)
                0.1 0.1 "black";
         PText (fst best + 0.1 * fst u) (snd best + 0.1 * snd u)
               "Direction of Motion" 8 "black"]
  else ret [].

Definition draw_fbd (repr_float : R -> string)
  (forces : list (option R)) (directions labels colors : list string)
  (title caption : string) (motion_arrow simple_mode angled_mode : bool)
  (angles : list R) (motion_direction : string)
  (uploaded_image : option UploadedFile) : res (Scene * list StMsg) :=
  let obj := object_prims uploaded_image in
  laid <- layout_forces repr_float forces directions labels colors
                        simple_mode angled_mode angles ;;
  let best_position := least_dense (points_of laid) in
  motion <- motion_prims motion_arrow motion_direction best_position ;;
  ret (mkScene (app (fst obj) (app (flat_map force_prims laid) motion))
               title caption (-1.5, 1.5) (-1.5, 1.5),
       snd obj).

(** ** The Streamlit front end [main] *)

(** [str.isspace] on an ASCII character: [\t \n \x0b \x0c \r], the
    separators [\x1c] to [\x1f], and the space. *)
Definition is_py_space (c : ascii) : bool :=
  let n := nat_of_ascii c in
  (Nat.leb 9 n && Nat.leb n 13) || (Nat.leb 28 n && Nat.leb n 32).

Fixpoint lstrip (s : string) : string :=
  match s with
  | EmptyString => EmptyString
  | String c s' => if is_py_space c then lstrip s' else s
  end.

Fixpoint rstrip (s : string) : string :=
  match s with
  | EmptyString => EmptyString
  | String c s' =>
      match rstrip s' with
      | EmptyString => if is_py_space c then EmptyString else String c EmptyString
      | r => String c r
      end
  end.

(** [s.strip()] *)
Definition py_strip (s : string) : string := rstrip (lstrip s).

(** [s.replace('.', '', 1)] *)
Fixpoint replace_first_dot (s : string) : string :=
  match s with
  | EmptyString => EmptyString
  | String c s' => if Ascii.eqb c "."%char then s' else String c (replace_first_dot s')
  end.

Definition is_ascii_digit (c : ascii) : bool :=
  let n := nat_of_ascii c in Nat.leb 48 n && Nat.leb n 57.

Fixpoint all_digits (s : string) : bool :=
  match s with
  | EmptyString => true
  | String c s' => is_ascii_digit c && all_digits s'
  end.

(** [s.isdigit()] on an ASCII string: non-empty and all digits. *)
Definition py_isdigit (s : string) : bool :=
  match s with
  | EmptyString => false
  | _ => all_digits s
  end.

(** The digits before the first ['.'] and, if there is one, those after it. *)
Fixpoint split_dot (s : string) : string * option string :=
  match s with
  | EmptyString => (EmptyString, None)
  | String c s' =>
      if Ascii.eqb c "."%char then (EmptyString, Some s')
      else let '(ip, fp) := split_dot s' in (String c ip, fp)
  end.

Fixpoint digits_value (acc : nat) (s : string) : nat :=
  match s with
  | EmptyString => acc
  | String c s' => digits_value (10 * acc + (nat_of_ascii c - 48))%nat s'
  end.

(** [float(s)] on the decimal literals [digits], [digits.], [.digits] and
    [digits.digits], with surrounding whitespace; [None] on every other
    string (Python's [float] accepts more, exponents, signs, [inf], ...,
    but the guard of [main] lets only these literals reach it). *)
Definition float_of_decimal (s : string) : option R :=
  let t := py_strip s in
  match split_dot t with
  | (ip, None) => if py_isdigit ip then Some (INR (digits_value 0 ip)) else None
  | (ip, Some fp) =>
      if (all_digits ip && all_digits fp && negb (String.eqb (ip ++ fp) ""))%bool
      then Some (INR (digits_value 0 ip) +
                 INR (digits_value 0 fp) / 10 ^ String.length fp)
      else None
  end.

(** The number of occurrences of a character in a string. *)
Fixpoint count_char (c : ascii) (s : string) : nat :=
  match s with
  | EmptyString => 0
  | String c' s' => if Ascii.eqb c' c then S (count_char c s') else count_char c s'
  end.

(** [float(magnitude) if magnitude.strip().replace('.', '', 1).isdigit() else None] *)
Definition parse_magnitude (magnitude : string) : option R :=
  if py_isdigit (replace_first_dot (py_strip magnitude))
  then float_of_decimal magnitude
  else None.

(** [COLOR_OPTIONS] *)
Definition COLOR_OPTIONS : list (string * string) :=
  [("Red", "#FF0000"); ("Blue", "#0000FF"); ("Green", "#00FF00");
   ("Orange", "#FFA500"); ("Purple", "#800080"); ("Cyan", "#00FFFF");
   ("Magenta", "#FF00FF"); ("Black", "#000000"); ("Gray", "#808080");
   ("Yellow", "#FFFF00")].

(** [COLOR_OPTIONS[color]] *)
Definition color_lookup (color : string) : res string :=
  match find (fun kv => String.eqb (fst kv) color) COLOR_OPTIONS with
  | Some kv => inr (snd kv)
  | None => inl (KeyError color)
  end.


(** The widget values of one force: the magnitude text, the direction
    selectbox, the angle number input, the label text and the colour
    selectbox.  Widgets the current mode does not show are not read. *)
Record ForceInputs := mkForceInputs {
  fi_magnitude : string;
  fi_direction : string;
  fi_angle : R;
  fi_label : string;
  fi_color : string
}.

(** The loop [for i in range(num_forces)] of [main], building the lists
    [forces], [directions], [labels], [colors], [angles]. *)
Fixpoint main_force_lists (simple_mode angled_mode : bool) (ws : list ForceInputs)
  : res (list (option R) * list string * list string * list string * list R) :=
  match ws with
  | [] => ret ([], [], [], [], [])
  | w :: ws' =>
      let magnitude := if simple_mode then Some 1 else parse_magnitude (fi_magnitude w) in
      let direction := if angled_mode then "" else fi_direction w in
      let angle := if angled_mode then fi_angle w else 0 in
      color <- color_lookup (fi_color w) ;;
      rest <- main_force_lists simple_mode angled_mode ws' ;;
      let '(fs, ds, ls, cs, angs) := rest in
      ret (magnitude :: fs, direction :: ds, fi_label w :: ls, color :: cs, angle :: angs)
  end.

(** [main] once "Generate Diagram" is pressed: collect the inputs and call
    [draw_fbd] (the exports that follow only serialise the figure). *)
Definition main_generate (repr_float : R -> string) (title caption : string)
  (uploaded_image : option UploadedFile) (simple_mode angled_mode motion_arrow : bool)
  (motion_direction : string) (ws : list ForceInputs) : res (Scene * list StMsg) :=
  lists <- main_force_lists simple_mode angled_mode ws ;;
  let '(forces, directions, labels, colors, angles) := lists in
  draw_fbd repr_float forces directions labels colors title caption motion_arrow
           simple_mode angled_mode angles motion_direction uploaded_image.

(** The number of forces [draw_fbd] draws outside simple mode: those with a
    known positive magnitude. *)
Definition count_positive (forces : list (option R)) : nat :=
  List.length (filter (fun o => match o with
                               | Some f => if Rle_dec f 0 then false else true
                               | None => false
                               end) forces).

(** ** Evaluating concrete renders *)

(** Settle the float comparisons of a concrete run. *)
Ltac decide_R :=
  repeat match goal with
  | |- context [Rle_dec ?a ?b] =>
      destruct (Rle_dec a b); [try (exfalso; lra) | try (exfalso; lra)]
  | |- context [Rge_dec ?a ?b] =>
      destruct (Rge_dec a b); [try (exfalso; lra) | try (exfalso; lra)]
  | H : context [Rge_dec ?a ?b] |- _ =>
      destruct (Rge_dec a b); [try (exfalso; lra) | try (exfalso; lra)]
  end.

Ltac run_render :=
  cbv [draw_fbd layout_forces collect lay_force force_at displacement py_index
       direction_lookup bind ret seq List.length nth_error fst snd
       object_prims motion_prims label_offset];
  simpl direction_map; cbv iota beta; decide_R.

(** ** The loop runner [collect] *)

Section Collect.

Context {A : Type} (f : nat -> res (option A)).

Lemma collect_sound : forall idx out,
  collect f idx = inr out ->
  forall a, In a out -> exists i, In i idx /\ f i = inr (Some a).
Proof.
  induction idx as [|i idx IH]; simpl; intros out H a Ha.
  - inversion H; subst; contradiction.
  - destruct (f i) as [e|o] eqn:Hf; simpl in H; [discriminate|].
    destruct (collect f idx) as [e|rest] eqn:Hr; simpl in H; [discriminate|].
    inversion H; subst; clear H.
    destruct o as [b|].
    + destruct Ha as [<-|Ha]; [exists i; auto|].
      destruct (IH rest eq_refl a Ha) as (j & Hj & Hfj); eauto.
    + destruct (IH rest eq_refl a Ha) as (j & Hj & Hfj); eauto.
Qed.

Lemma collect_runs_all : forall idx out,
  collect f idx = inr out -> forall i, In i idx -> exists o, f i = inr o.
Proof.
  induction idx as [|j idx IH]; simpl; intros out H i Hi; [contradiction|].
  destruct (f j) as [e|o] eqn:Hf; simpl in H; [discriminate|].
  destruct (collect f idx) as [e|rest] eqn:Hr; simpl in H; [discriminate|].
  destruct Hi as [<-|Hi]; eauto.
Qed.

Lemma collect_error : forall idx i e,
  In i idx -> f i = inl e -> exists e', collect f idx = inl e'.
Proof.
  intros idx i e Hi Hf.
  destruct (collect f idx) as [e'|out] eqn:H; [eauto|].
  destruct (collect_runs_all idx out H i Hi) as [o Ho]; congruence.
Qed.

Lemma collect_total : forall idx out,
  (forall i, In i idx -> exists a, f i = inr (Some a)) ->
  collect f idx = inr out ->
  Forall2 (fun i a => f i = inr (Some a)) idx out.
Proof.
  induction idx as [|i idx IH]; simpl; intros out Hall H.
  - inversion H; constructor.
  - destruct (Hall i (or_introl eq_refl)) as [a Ha]; rewrite Ha in H; simpl in H.
    destruct (collect f idx) as [e|rest] eqn:Hr; simpl in H; [discriminate|].
    inversion H; subst; constructor; auto.
Qed.

End Collect.

(** ** The scan for the least dense point *)

Section Scan.

Context {A : Type} (score : A -> R).

(** From a state [(Some m, b)], the scan either keeps [b] (nothing scores
    below [m]) or ends at the first candidate of least score, below [m]. *)
Lemma scan_from_some : forall cs m b,
  let r := fold_left (scan_step score) cs (Some m, b) in
  (snd r = b /\ fst r = Some m /\ Forall (fun c => m <= score c) cs) \/
  (exists i, nth_error cs i = Some (snd r) /\ fst r = Some (score (snd r)) /\
     score (snd r) < m /\
     (forall c, In c cs -> score (snd r) <= score c) /\
     (forall j c, (j < i)%nat -> nth_error cs j = Some c -> score (snd r) < score c)).
Proof.
  induction cs as [|c cs IH]; intros m b; simpl.
  - left; auto.
  - assert (Hs : scan_step score (Some m, b) c =
                 if Rlt_dec (score c) m then (Some (score c), c) else (Some m, b))
      by (unfold scan_step, lt_min; simpl; destruct (Rlt_dec (score c) m); reflexivity).
    rewrite Hs; destruct (Rlt_dec (score c) m) as [Hlt|Hge].
    + destruct (IH (score c) c) as [(Hb & Hm & Hall) | (i & Hi & Hm & Hlt' & Hmin & Hfirst)].
      * right; exists 0%nat; rewrite Hb; simpl; repeat split; auto.
        -- intros c' [<-|Hc']; [lra|]. rewrite Forall_forall in Hall; auto.
        -- intros j c' Hj; lia.
      * right; exists (S i); simpl; repeat split; auto; [lra| |].
        -- intros c' [<-|Hc']; [lra|auto].
        -- intros [|j] c' Hj Hc'; simpl in Hc'; [inversion Hc'; subst; lra|].
           apply (Hfirst j); [lia|auto].
    + destruct (IH m b) as [(Hb & Hm & Hall) | (i & Hi & Hm & Hlt' & Hmin & Hfirst)].
      * left; repeat split; auto. constructor; auto; lra.
      * right; exists (S i); simpl; repeat split; auto.
        -- intros c' [<-|Hc']; [lra|auto].
        -- intros [|j] c' Hj Hc'; simpl in Hc'; [inversion Hc'; subst; lra|].
           apply (Hfirst j); [lia|auto].
Qed.

(** From the initial state [(float('inf'), b0)] over a non-empty candidate
    list, the scan ends at the first candidate of least score. *)
Lemma scan_argmin : forall c0 cs b0,
  let r := snd (fold_left (scan_step score) (c0 :: cs) (None, b0)) in
  exists i, nth_error (c0 :: cs) i = Some r /\
    (forall c, In c (c0 :: cs) -> score r <= score c) /\
    (forall j c, (j < i)%nat -> nth_error (c0 :: cs) j = Some c -> score r < score c).
Proof.
  intros c0 cs b0; simpl.
  change (scan_step score (None, b0) c0) with (Some (score c0), c0).
  destruct (scan_from_some cs (score c0) c0)
    as [(Hb & Hm & Hall) | (i & Hi & Hm & Hlt & Hmin & Hfirst)].
  - exists 0%nat; simpl in *; rewrite Hb; repeat split; auto.
    + intros c [<-|Hc]; [lra|]. rewrite Forall_forall in Hall; auto.
    + intros j c Hj; lia.
  - exists (S i); simpl in *; repeat split; auto.
    + intros c [<-|Hc]; [lra|auto].
    + intros [|j] c Hj Hc; simpl in Hc; [inversion Hc; subst; lra|].
      apply (Hfirst j); [lia|auto].
Qed.

End Scan.

(** ** The candidate grid *)

Lemma linspace_unit_bounds : forall x,
  In x (linspace (-1) 1 10) -> -1 <= x <= 1.
Proof.
  unfold linspace; intros x Hx.
  apply in_map_iff in Hx as (k & <- & Hk).
  apply in_seq in Hk.
  assert (H9 : INR (10 - 1) = 9) by (simpl; lra).
  rewrite H9.
  assert (Hk0 : 0 <= INR k) by apply pos_INR.
  assert (Hk9 : INR k <= 9) by (replace 9 with (INR 9) by (simpl; lra); apply le_INR; lia).
  split; lra.
Qed.

Lemma grid_bounds : forall g,
  In g grid -> -1 <= fst g <= 1 /\ -1 <= snd g <= 1.
Proof.
  unfold grid; intros g Hg.
  apply in_flat_map in Hg as (gx & Hgx & Hg).
  apply in_map_iff in Hg as (gy & <- & Hgy).
  simpl; split; apply linspace_unit_bounds; assumption.
Qed.

Lemma grid_length : List.length grid = 100%nat.
Proof. reflexivity. Qed.

Lemma linspace_length : forall a b n, List.length (linspace a b n) = n.
Proof. intros; unfold linspace; rewrite length_map, length_seq; reflexivity. Qed.

(** Position [a * n + b] of the nested scan holds [(xs[a], ys[b])]. *)
Lemma nested_scan_index : forall (xs ys : list R) a b x y,
  nth_error xs a = Some x -> nth_error ys b = Some y ->
  nth_error (flat_map (fun gx => map (fun gy => (gx, gy)) ys) xs)
            (a * List.length ys + b) = Some (x, y).
Proof.
  induction xs as [|x0 xs IH]; intros ys [|a] b x y Ha Hb; simpl in Ha; try discriminate.
  - inversion Ha; subst; simpl.
    rewrite nth_error_app1 by (rewrite length_map; apply nth_error_Some; congruence).
    rewrite nth_error_map, Hb; reflexivity.
  - simpl. rewrite nth_error_app2 by (rewrite length_map; lia).
    rewrite length_map.
    replace (List.length ys + a * List.length ys + b - List.length ys)%nat
      with (a * List.length ys + b)%nat by lia.
    apply IH; assumption.
Qed.

Lemma grid_cons : exists cs,
  grid = ((-1 + INR 0 * ((1 - -1) / INR (10 - 1))),
          (-1 + INR 0 * ((1 - -1) / INR (10 - 1)))) :: cs.
Proof. eexists; reflexivity. Qed.

Lemma least_dense_scan : forall points,
  exists i, nth_error grid i = Some (least_dense points) /\
    (forall g, In g grid -> density points (least_dense points) <= density points g) /\
    (forall j g, (j < i)%nat -> nth_error grid j = Some g ->
                 density points (least_dense points) < density points g).
Proof.
  intros points.
  destruct grid_cons as [cs Hg].
  assert (E : grid = hd (0, 0) grid :: tl grid) by (rewrite Hg; reflexivity).
  pose proof (scan_argmin (density points) (hd (0, 0) grid) (tl grid) (0, 0)) as H.
  cbv zeta in H. rewrite <- E in H.
  exact H.
Qed.

Lemma least_dense_in_grid : forall points, In (least_dense points) grid.
Proof.
  intros points.
  destruct (least_dense_scan points) as (i & Hi & _).
  eapply nth_error_In; eassumption.
Qed.

(** * The claims *)

(** ** C4: the least-dense search *)

(** C4 (counterexample): the candidate grid does not span the visible bounds.
    A render's view is [-1.5, 1.5] x [-1.5, 1.5], but no candidate of the
    search lies on the edge of that view: the grid spans [-1, 1] x [-1, 1]. *)
Lemma grid_not_over_view_bounds :
  exists sc msgs,
    draw_fbd (fun _ => "") [] [] [] [] "Free Body Diagram" "" false false false [] "Up" None
      = inr (sc, msgs) /\
    xlim sc = (-1.5, 1.5) /\ ylim sc = (-1.5, 1.5) /\
    ~ (exists g, In g grid /\
        (fst g = fst (xlim sc) \/ fst g = snd (xlim sc) \/
         snd g = fst (ylim sc) \/ snd g = snd (ylim sc))).
Proof.
  eexists; eexists; split; [reflexivity|].
  simpl; split; [reflexivity|]; split; [reflexivity|].
  intros (g & Hg & Hedge).
  pose proof (grid_bounds g Hg); lra.
Qed.

(** C4 (amended): the search scans a 10 x 10 grid over [-1, 1] x [-1, 1]
    ([np.linspace(-1, 1, 10)] on each axis), [gx] in the outer loop and [gy]
    in the inner one, so that candidate [(grid_x[a], grid_y[b])] is visited
    at position [10 a + b]; it returns a candidate of least crowding score
    [sum(exp(-d^2))] over the occupied points, and the first such candidate
    in that scan order: every candidate visited before it scores strictly
    more. *)
Theorem least_dense_first_min : forall points,
  List.length grid = 100%nat /\
  (forall a b x y, nth_error grid_x a = Some x -> nth_error grid_y b = Some y ->
     nth_error grid (a * 10 + b) = Some (x, y)) /\
  (forall g, In g grid -> -1 <= fst g <= 1 /\ -1 <= snd g <= 1) /\
  (exists i, nth_error grid i = Some (least_dense points) /\
    (forall g, In g grid -> density points (least_dense points) <= density points g) /\
    (forall j g, (j < i)%nat -> nth_error grid j = Some g ->
                 density points (least_dense points) < density points g)).
Proof.
  intros points; split; [exact grid_length|]; split; [|split].
  - intros a b x y Ha Hb.
    pose proof (nested_scan_index grid_x grid_y a b x y Ha Hb) as H.
    unfold grid_y at 2 in H; rewrite linspace_length in H; exact H.
  - exact grid_bounds.
  - apply least_dense_scan.
Qed.

(** ** C7: the search with no occupied points *)

(** C7: with no occupied point every candidate scores [0], and the search
    returns the first candidate of the scan, [(-1, -1)], on every call. *)
Theorem least_dense_no_points : least_dense [] = (-1, -1).
Proof.
  destruct grid_cons as [cs Hg].
  destruct (least_dense_scan []) as (i & Hi & _ & Hfirst).
  destruct i as [|i].
  - rewrite Hg in Hi; simpl in Hi; inversion Hi.
    f_equal; simpl; lra.
  - exfalso.
    assert (Hc : nth_error grid 0 = Some (hd (0, 0) grid)) by (rewrite Hg; reflexivity).
    pose proof (Hfirst 0%nat _ ltac:(lia) Hc) as Hlt.
    unfold density in Hlt; simpl in Hlt; lra.
Qed.

(** ** Facts about one iteration of the force loop and the whole render *)

Lemma direction_map_cases : forall d u,
  direction_map d = Some u ->
  u = (0, 1) \/ u = (0, -1) \/ u = (-1, 0) \/ u = (1, 0).
Proof.
  unfold direction_map; intros d u H.
  repeat match type of H with
  | context [string_dec ?a ?b] => destruct (string_dec a b)
  end; inversion H; auto.
Qed.

Section LayoutFacts.

Variables (repr_float : R -> string) (forces : list (option R))
  (directions labels colors : list string) (simple_mode angled_mode : bool)
  (angles : list R).

Lemma lay_force_some : forall i l,
  lay_force repr_float forces directions labels colors simple_mode angled_mode angles i
    = inr (Some l) ->
  exists f label,
    force_at forces simple_mode i = inr (Some f) /\ 0 < f /\
    displacement directions angled_mode angles i f = inr (lv_dx l, lv_dy l) /\
    py_index labels i = inr label /\
    lv_label_x l = lv_dx l + label_offset (lv_dx l) /\
    lv_label_y l = lv_dy l + label_offset (lv_dy l) /\
    lv_text l = (if simple_mode then label
                 else label ++ " (" ++ repr_float f ++ "N)").
Proof.
  intros i l H; unfold lay_force in H.
  destruct (force_at forces simple_mode i) as [e|[f|]] eqn:Hf; simpl in H;
    try discriminate.
  destruct (Rle_dec f 0) as [Hle|Hgt]; [discriminate|].
  destruct (displacement directions angled_mode angles i f) as [e|[dx dy]] eqn:Hd;
    simpl in H; [discriminate|].
  destruct (py_index colors i) as [e|color]; simpl in H; [discriminate|].
  destruct (py_index labels i) as [e|label] eqn:Hl; simpl in H; [discriminate|].
  inversion H; subst; clear H; simpl.
  exists f, label; repeat split; auto; lra.
Qed.

Lemma layout_sound : forall laid,
  layout_forces repr_float forces directions labels colors simple_mode angled_mode angles
    = inr laid ->
  forall l, In l laid ->
    exists i, (i < List.length forces)%nat /\
      lay_force repr_float forces directions labels colors simple_mode angled_mode angles i
        = inr (Some l).
Proof.
  intros laid H l Hl.
  destruct (collect_sound _ _ _ H l Hl) as (i & Hi & Hf).
  apply in_seq in Hi; exists i; split; [lia|exact Hf].
Qed.

(** With symbolic directions each drawn force has one zero component. *)
Lemma layout_axis_aligned : forall laid,
  angled_mode = false ->
  layout_forces repr_float forces directions labels colors simple_mode angled_mode angles
    = inr laid ->
  Forall (fun l => lv_dx l = 0 \/ lv_dy l = 0) laid.
Proof.
  intros laid Hang H; apply Forall_forall; intros l Hl.
  destruct (layout_sound laid H l Hl) as (i & _ & Hi).
  destruct (lay_force_some i l Hi) as (f & label & _ & _ & Hd & _).
  unfold displacement in Hd; rewrite Hang in Hd.
  destruct (py_index directions i) as [e|d]; simpl in Hd; [discriminate|].
  unfold direction_lookup in Hd.
  destruct (direction_map d) as [u|] eqn:Hu; simpl in Hd; [|discriminate].
  inversion Hd; subst.
  destruct (direction_map_cases d u Hu) as [-> | [-> | [-> | ->]]]; simpl; lra.
Qed.

End LayoutFacts.

Lemma scene_arrows_app : forall ps qs,
  scene_arrows (app ps qs) = app (scene_arrows ps) (scene_arrows qs).
Proof.
  induction ps as [|p ps IH]; intros qs; simpl; [reflexivity|].
  destruct (arrow_of p); rewrite IH; reflexivity.
Qed.

Lemma scene_arrows_forces : forall laid,
  scene_arrows (flat_map force_prims laid) =
  map (fun l => (0, 0, lv_dx l, lv_dy l)) laid.
Proof.
  induction laid as [|l laid IH]; simpl; [reflexivity|].
  rewrite IH; reflexivity.
Qed.

Lemma scene_arrows_object : forall up, scene_arrows (fst (object_prims up)) = [].
Proof.
  intros [f|]; simpl; [|reflexivity].
  destruct (preprocess_image f) as [[img|] msgs]; reflexivity.
Qed.

Lemma draw_fbd_inv : forall repr_float forces directions labels colors title caption
    motion_arrow simple_mode angled_mode angles motion_direction uploaded_image sc msgs,
  draw_fbd repr_float forces directions labels colors title caption motion_arrow
    simple_mode angled_mode angles motion_direction uploaded_image = inr (sc, msgs) ->
  exists laid motion,
    layout_forces repr_float forces directions labels colors simple_mode angled_mode angles
      = inr laid /\
    motion_prims motion_arrow motion_direction (least_dense (points_of laid)) = inr motion /\
    sc = mkScene (app (fst (object_prims uploaded_image))
                      (app (flat_map force_prims laid) motion))
                 title caption (-1.5, 1.5) (-1.5, 1.5) /\
    msgs = snd (object_prims uploaded_image).
Proof.
  intros until msgs; intros H; unfold draw_fbd in H.
  destruct (layout_forces _ _ _ _ _ _ _ _) as [e|laid] eqn:Hl; simpl in H; [discriminate|].
  destruct (motion_prims _ _ _) as [e|motion] eqn:Hm; simpl in H; [discriminate|].
  inversion H; subst; eauto 6.
Qed.

Lemma motion_arrows : forall motion_arrow motion_direction best motion,
  motion_prims motion_arrow motion_direction best = inr motion ->
  (motion_arrow = false /\ motion = []) \/
  (motion_arrow = true /\ exists u, direction_map motion_direction = Some u /\
     motion = [PArrow (fst best) (snd best) (0.3 * fst u) (0.3 * snd u) 0.1 0.1 "black";
               PText (fst best + 0.1 * fst u) (snd best + 0.1 * snd u)
                     "Direction of Motion" 8 "black"]).
Proof.
  intros [|] d best motion H; unfold motion_prims in H.
  - right; split; [reflexivity|].
    unfold direction_lookup in H.
    destruct (direction_map d) as [u|]; simpl in H; [|discriminate].
    inversion H; eauto.
  - left; inversion H; auto.
Qed.

(** ** C6: symbolic directions *)

(** C6: [direction_map] sends [Up], [Down], [Left], [Right] to [(0, 1)],
    [(0, -1)], [(-1, 0)], [(1, 0)]; hence, when directions are symbolic
    ([angled_mode] off), every arrow of a successful render, in simple mode
    and in magnitude mode alike, has a zero component. *)
Theorem symbolic_directions_axis_aligned :
  direction_map "Up" = Some (0, 1) /\ direction_map "Down" = Some (0, -1) /\
  direction_map "Left" = Some (-1, 0) /\ direction_map "Right" = Some (1, 0) /\
  forall repr_float forces directions labels colors title caption motion_arrow
    simple_mode angles motion_direction uploaded_image sc msgs,
  draw_fbd repr_float forces directions labels colors title caption motion_arrow
    simple_mode false angles motion_direction uploaded_image = inr (sc, msgs) ->
  Forall (fun a : R * R * R * R =>
            let '(_, _, dx, dy) := a in dx = 0 \/ dy = 0)
         (scene_arrows (prims sc)).
Proof.
  do 4 (split; [reflexivity|]).
  intros until msgs; intros H.
  destruct (draw_fbd_inv _ _ _ _ _ _ _ _ _ _ _ _ _ _ _ H)
    as (laid & motion & Hl & Hm & -> & _); cbn [prims].
  rewrite !scene_arrows_app, scene_arrows_object, scene_arrows_forces; cbn [app].
  apply Forall_app; split.
  - pose proof (layout_axis_aligned _ _ _ _ _ _ _ _ laid eq_refl Hl) as Hax.
    apply Forall_map; eapply Forall_impl; [|exact Hax]; simpl; auto.
  - destruct (motion_arrows _ _ _ _ Hm) as [(_ & ->) | (_ & u & Hu & ->)];
      cbn [scene_arrows arrow_of]; [constructor|].
    constructor; [|constructor].
    destruct (direction_map_cases _ _ Hu) as [-> | [-> | [-> | ->]]];
      cbn [fst snd]; lra.
Qed.

Lemma symbolic_directions_axis_aligned_witness :
  exists sc msgs,
    draw_fbd (fun _ => "50.0") [Some 50; Some 30] ["Up"; "Left"] ["Weight"; "Friction"]
      ["#FF0000"; "#0000FF"] "Free Body Diagram" "" false false false [0; 0] "Up" None
      = inr (sc, msgs) /\
    Forall (fun a : R * R * R * R => let '(_, _, dx, dy) := a in dx = 0 \/ dy = 0)
           (scene_arrows (prims sc)).
Proof.
  assert (H : exists sc msgs,
    draw_fbd (fun _ => "50.0") [Some 50; Some 30] ["Up"; "Left"] ["Weight"; "Friction"]
      ["#FF0000"; "#0000FF"] "Free Body Diagram" "" false false false [0; 0] "Up" None
      = inr (sc, msgs)) by (do 2 eexists; run_render; reflexivity).
  destruct H as (sc & msgs & H); exists sc, msgs; split; [exact H|].
  destruct symbolic_directions_axis_aligned as (_ & _ & _ & _ & Hthm).
  exact (Hthm _ _ _ _ _ _ _ _ _ _ _ _ sc msgs H).
Defined.

(** ** Simple mode *)

Lemma Forall2_seq_nth {B} (P : nat -> B -> Prop) : forall n s l,
  Forall2 P (seq s n) l -> forall i b, nth_error l i = Some b -> P (s + i)%nat b.
Proof.
  induction n as [|n IH]; intros s l H i b Hb; simpl in H; inversion H; subst.
  - destruct i; discriminate.
  - destruct i as [|i]; simpl in Hb.
    + inversion Hb; subst; rewrite Nat.add_0_r; assumption.
    + replace (s + S i)%nat with (S s + i)%nat by lia.
      eapply IH; eassumption.
Qed.

Section SimpleMode.

Variables (repr_float : R -> string) (forces : list (option R))
  (directions labels colors : list string) (angled_mode : bool) (angles : list R).

Lemma simple_lay_force_drawn : forall i o,
  lay_force repr_float forces directions labels colors true angled_mode angles i = inr o ->
  exists l, o = Some l.
Proof.
  intros i o H; unfold lay_force, force_at in H; simpl in H.
  destruct (Rle_dec 1 0); [lra|].
  destruct (displacement directions angled_mode angles i 1); simpl in H; [discriminate|].
  destruct (py_index colors i); simpl in H; [discriminate|].
  destruct (py_index labels i); simpl in H; [discriminate|].
  inversion H; eauto.
Qed.

(** In simple mode every drawn force has a displacement of length [0.5]. *)
Lemma simple_disp_norm : forall i l,
  lay_force repr_float forces directions labels colors true angled_mode angles i
    = inr (Some l) ->
  lv_dx l ^ 2 + lv_dy l ^ 2 = 0.5 ^ 2.
Proof.
  intros i l H.
  destruct (lay_force_some _ _ _ _ _ _ _ _ i l H) as (f & label & Hf & _ & Hd & _).
  unfold force_at in Hf; inversion Hf; subst f.
  unfold displacement in Hd; destruct angled_mode.
  - destruct (py_index angles i) as [e|a]; simpl in Hd; [discriminate|].
    injection Hd as Hx Hy.
    rewrite <- Hx, <- Hy.
    pose proof (sin2_cos2 (a * PI / 180)) as Hsc; unfold Rsqr in Hsc; nra.
  - destruct (py_index directions i) as [e|d]; simpl in Hd; [discriminate|].
    unfold direction_lookup in Hd.
    destruct (direction_map d) as [u|] eqn:Hu; simpl in Hd; [|discriminate].
    injection Hd as Hx Hy; rewrite <- Hx, <- Hy.
    destruct (direction_map_cases d u Hu) as [-> | [-> | [-> | ->]]]; simpl; lra.
Qed.

End SimpleMode.

(** C10: in simple mode every force, whatever magnitude (or [None]) the
    caller gave, is drawn with magnitude [1]: the render draws one arrow per
    force, each of displacement length exactly [0.5], and each label is the
    bare caller label, without the magnitude text. *)
Theorem simple_mode_unit_arrows : forall repr_float forces directions labels colors
    angled_mode angles laid,
  layout_forces repr_float forces directions labels colors true angled_mode angles
    = inr laid ->
  List.length laid = List.length forces /\
  forall i l, nth_error laid i = Some l ->
    force_at forces true i = inr (Some 1) /\
    sqrt (lv_dx l ^ 2 + lv_dy l ^ 2) = 0.5 /\
    nth_error labels i = Some (lv_text l).
Proof.
  intros until laid; intros H.
  assert (Hall : Forall2 (fun i a =>
            lay_force repr_float forces directions labels colors true angled_mode angles i
              = inr (Some a)) (seq 0 (List.length forces)) laid).
  { refine (collect_total _ _ _ _ H).
    intros i Hi.
    destruct (collect_runs_all _ _ _ H i Hi) as [o Ho].
    destruct (simple_lay_force_drawn _ _ _ _ _ _ _ _ _ Ho) as [l ->]; eauto. }
  split.
  - apply Forall2_length in Hall; rewrite length_seq in Hall; auto.
  - intros i l Hl.
    pose proof (Forall2_seq_nth _ _ _ _ Hall i l Hl) as Hi; simpl in Hi.
    split; [reflexivity|]; split.
    + rewrite (simple_disp_norm _ _ _ _ _ _ _ _ _ Hi).
      apply sqrt_pow2; lra.
    + destruct (lay_force_some _ _ _ _ _ _ _ _ i l Hi)
        as (f & label & _ & _ & _ & Hlab & _ & _ & Htext).
      unfold py_index in Hlab.
      destruct (nth_error labels i) as [lab|]; [|discriminate].
      injection Hlab as <-.
      rewrite Htext; reflexivity.
Qed.

Lemma simple_mode_unit_arrows_witness :
  exists laid,
    layout_forces (fun _ => "") [Some 50; None; Some 3] ["Up"; "Down"; "Right"]
      ["Normal"; "Weight"; "Push"] ["#FF0000"; "#0000FF"; "#000000"] true false [0; 0; 0]
      = inr laid /\
    List.length laid = 3%nat /\
    forall i l, nth_error laid i = Some l ->
      force_at [Some 50; None; Some 3] true i = inr (Some 1) /\
      sqrt (lv_dx l ^ 2 + lv_dy l ^ 2) = 0.5 /\
      nth_error ["Normal"; "Weight"; "Push"] i = Some (lv_text l).
Proof.
  assert (H : exists laid,
    layout_forces (fun _ => "") [Some 50; None; Some 3] ["Up"; "Down"; "Right"]
      ["Normal"; "Weight"; "Push"] ["#FF0000"; "#0000FF"; "#000000"] true false [0; 0; 0]
      = inr laid) by (eexists; run_render; reflexivity).
  destruct H as (laid & H); exists laid; split; [exact H|].
  exact (simple_mode_unit_arrows _ _ _ _ _ _ _ laid H).
Defined.

(** ** Label placement *)

Lemma label_offset_cases : forall c,
  (0 <= c -> label_offset c = 0.3) /\ (c < 0 -> label_offset c = -0.3).
Proof.
  intros c; unfold label_offset.
  destruct (Rge_dec c 0); split; intros; try reflexivity; exfalso; lra.
Qed.

(** C8 (counterexample): there is no label-distance multiplier.  Two
    upward forces of magnitudes [1] and [2] in one render get their labels
    at [0.3] above their tips, which no multiplier [m] and nudge [n] along
    the orthogonal axis reproduce as [tip + m * displacement + (n, 0)]. *)
Lemma label_anchor_not_scaled :
  exists l1 l2,
    layout_forces (fun _ => "") [Some 1; Some 2] ["Up"; "Up"] ["Normal"; "Lift"]
      ["#FF0000"; "#0000FF"] false false [0; 0] = inr [l1; l2] /\
    ~ (exists m n, forall l, In l [l1; l2] ->
         lv_label_x l = lv_dx l + m * lv_dx l + n /\
         lv_label_y l = lv_dy l + m * lv_dy l).
Proof.
  do 2 eexists; split; [run_render; reflexivity|].
  intros (m & n & H).
  destruct (H _ (or_introl eq_refl)) as [_ H1].
  destruct (H _ (or_intror (or_introl eq_refl))) as [_ H2].
  simpl in H1, H2; decide_R; lra.
Qed.

(** C8 (amended): every label is anchored at its arrow tip plus a fixed
    [0.3] on each axis, outward in the sign of that displacement component
    ([+0.3] for a component [>= 0], [-0.3] otherwise), whatever the
    magnitude. *)
Theorem label_anchor_fixed_offset : forall repr_float forces directions labels colors
    simple_mode angled_mode angles laid,
  layout_forces repr_float forces directions labels colors simple_mode angled_mode angles
    = inr laid ->
  Forall (fun l =>
    (0 <= lv_dx l -> lv_label_x l = lv_dx l + 0.3) /\
    (lv_dx l < 0 -> lv_label_x l = lv_dx l - 0.3) /\
    (0 <= lv_dy l -> lv_label_y l = lv_dy l + 0.3) /\
    (lv_dy l < 0 -> lv_label_y l = lv_dy l - 0.3)) laid.
Proof.
  intros until laid; intros H; apply Forall_forall; intros l Hl.
  destruct (layout_sound _ _ _ _ _ _ _ _ laid H l Hl) as (i & _ & Hi).
  destruct (lay_force_some _ _ _ _ _ _ _ _ i l Hi)
    as (f & label & _ & _ & _ & _ & Hx & Hy & _).
  destruct (label_offset_cases (lv_dx l)) as [Hx1 Hx2].
  destruct (label_offset_cases (lv_dy l)) as [Hy1 Hy2].
  rewrite Hx, Hy; repeat split; intros Hc;
    [rewrite Hx1 | rewrite Hx2 | rewrite Hy1 | rewrite Hy2]; auto; lra.
Qed.

Lemma label_anchor_fixed_offset_witness :
  exists laid,
    layout_forces (fun _ => "1.0") [Some 1; Some 2] ["Up"; "Left"] ["Normal"; "Drag"]
      ["#FF0000"; "#0000FF"] false false [0; 0] = inr laid /\
    Forall (fun l =>
      (0 <= lv_dx l -> lv_label_x l = lv_dx l + 0.3) /\
      (lv_dx l < 0 -> lv_label_x l = lv_dx l - 0.3) /\
      (0 <= lv_dy l -> lv_label_y l = lv_dy l + 0.3) /\
      (lv_dy l < 0 -> lv_label_y l = lv_dy l - 0.3)) laid.
Proof.
  assert (H : exists laid,
    layout_forces (fun _ => "1.0") [Some 1; Some 2] ["Up"; "Left"] ["Normal"; "Drag"]
      ["#FF0000"; "#0000FF"] false false [0; 0] = inr laid)
    by (eexists; run_render; reflexivity).
  destruct H as (laid & H); exists laid; split; [exact H|].
  exact (label_anchor_fixed_offset _ _ _ _ _ _ _ _ laid H).
Defined.

(** ** Scale *)

(** C3 (counterexample): the displacement is not [magnitude * K / max]
    for a fixed [K].  With magnitudes [5] and [10] the force of [10] is drawn
    [5] long, not [10 * (2.0 / 10)]; and no single [K] gives both that render
    and the render of one force of magnitude [1], drawn [0.5] long. *)
Lemma scale_not_K_over_max :
  exists l1 l2 l3,
    layout_forces (fun _ => "") [Some 5; Some 10] ["Up"; "Right"] ["Normal"; "Push"]
      ["#FF0000"; "#0000FF"] false false [0; 0] = inr [l1; l2] /\
    layout_forces (fun _ => "") [Some 1] ["Right"] ["Push"] ["#0000FF"] false false [0]
      = inr [l3] /\
    lv_dx l2 <> 10 * (2 / 10) * 1 /\
    ~ (exists K, lv_dx l2 = 10 * (K / 10) * 1 /\ lv_dx l3 = 1 * (K / 1) * 1).
Proof.
  do 3 eexists; split; [run_render; reflexivity|]; split; [run_render; reflexivity|].
  cbn [lv_dx]; split; [lra|].
  intros (K & H1 & H2); lra.
Qed.

(** C3 (amended): there is no scale factor derived from the magnitudes.
    The object is always the fixed [1.0 x 1.0] square, or the uploaded
    image in the fixed extent [[-0.5, 0.5] x [-0.5, 0.5]]; and every drawn
    force of magnitude [f] ([forces[i]], or [1] in simple mode) has
    displacement [f * 0.5] times its unit direction, whatever the other
    magnitudes. *)
Theorem force_scale_fixed_half :
  (forall uploaded_image,
     fst (object_prims uploaded_image) = [PRect (-0.5) (-0.5) 1 1 "black"] \/
     exists img, fst (object_prims uploaded_image) = [PImage img (-0.5) 0.5 (-0.5) 0.5]) /\
  forall repr_float forces directions labels colors simple_mode angled_mode angles laid,
  layout_forces repr_float forces directions labels colors simple_mode angled_mode angles
    = inr laid ->
  Forall (fun l => exists i f,
    force_at forces simple_mode i = inr (Some f) /\ 0 < f /\
    ((angled_mode = false /\ exists d u, nth_error directions i = Some d /\
        direction_map d = Some u /\
        lv_dx l = fst u * f * 0.5 /\ lv_dy l = snd u * f * 0.5) \/
     (angled_mode = true /\ exists a, nth_error angles i = Some a /\
        lv_dx l = f * 0.5 * cos (a * PI / 180) /\
        lv_dy l = f * 0.5 * sin (a * PI / 180)))) laid.
Proof.
  split.
  - assert (Hr : default_rect = PRect (-0.5) (-0.5) 1 1 "black")
      by (unfold default_rect; f_equal; lra).
    intros [f|]; simpl; [|left; rewrite Hr; reflexivity].
    destruct (preprocess_image f) as [[img|] msgs]; simpl; eauto.
    left; rewrite Hr; reflexivity.
  - intros until laid; intros H; apply Forall_forall; intros l Hl.
    destruct (layout_sound _ _ _ _ _ _ _ _ laid H l Hl) as (i & _ & Hi).
    destruct (lay_force_some _ _ _ _ _ _ _ _ i l Hi) as (f & label & Hf & Hpos & Hd & _).
    exists i, f; split; [exact Hf|]; split; [exact Hpos|].
    unfold displacement in Hd; destruct angled_mode.
    + right; split; [reflexivity|].
      unfold py_index in Hd; destruct (nth_error angles i) as [a|] eqn:Ea; [|discriminate].
      simpl in Hd; injection Hd as Hx Hy; eauto.
    + left; split; [reflexivity|].
      unfold py_index in Hd; destruct (nth_error directions i) as [d|] eqn:Ed; [|discriminate].
      simpl in Hd; unfold direction_lookup in Hd.
      destruct (direction_map d) as [u|] eqn:Eu; [|discriminate].
      simpl in Hd; injection Hd as Hx Hy.
      exists d, u; auto.
Qed.

Lemma force_scale_fixed_half_witness :
  exists laid,
    layout_forces (fun _ => "5.0") [Some 5; Some 10] ["Up"; "Right"] ["Normal"; "Push"]
      ["#FF0000"; "#0000FF"] false false [0; 0] = inr laid /\
    Forall (fun l => exists i f,
      force_at [Some 5; Some 10] false i = inr (Some f) /\ 0 < f /\
      ((false = false /\ exists d u, nth_error ["Up"; "Right"] i = Some d /\
          direction_map d = Some u /\
          lv_dx l = fst u * f * 0.5 /\ lv_dy l = snd u * f * 0.5) \/
       (false = true /\ exists a, nth_error [0; 0] i = Some a /\
          lv_dx l = f * 0.5 * cos (a * PI / 180) /\
          lv_dy l = f * 0.5 * sin (a * PI / 180)))) laid.
Proof.
  assert (H : exists laid,
    layout_forces (fun _ => "5.0") [Some 5; Some 10] ["Up"; "Right"] ["Normal"; "Push"]
      ["#FF0000"; "#0000FF"] false false [0; 0] = inr laid)
    by (eexists; run_render; reflexivity).
  destruct H as (laid & H); exists laid; split; [exact H|].
  destruct force_scale_fixed_half as [_ Hthm].
  exact (Hthm _ _ _ _ _ _ _ _ laid H).
Defined.

(** ** Resultant *)

(** C2 (counterexample): no resultant is drawn.  For the known forces
    [50 N Up] and [30 N Left] the arrows of the render are the two force
    arrows only; none has the component-wise sum [(-15, 25)] of their
    displacements. *)
Lemma no_resultant_arrow :
  exists sc msgs,
    draw_fbd (fun _ => "") [Some 50; Some 30] ["Up"; "Left"] ["Normal"; "Friction"]
      ["#FF0000"; "#0000FF"] "Free Body Diagram" "" false false false [0; 0] "Up" None
      = inr (sc, msgs) /\
    ~ (exists x y, In (x, y, -15, 25) (scene_arrows (prims sc))).
Proof.
  do 2 eexists; split; [run_render; reflexivity|].
  intros (x & y & Hin).
  cbn [prims scene_arrows arrow_of app flat_map force_prims default_rect
       lv_dx lv_dy fst snd] in Hin.
  destruct Hin as [Hin | [Hin | []]]; injection Hin; intros; lra.
Qed.

(** C2 (amended): the render computes no resultant.  The arrows of a
    successful render are exactly the force arrows, from the origin with
    the laid-out displacements, in force order, followed by the motion
    arrow when it is enabled. *)
Theorem arrows_are_forces_then_motion : forall repr_float forces directions labels colors
    title caption motion_arrow simple_mode angled_mode angles motion_direction
    uploaded_image sc msgs,
  draw_fbd repr_float forces directions labels colors title caption motion_arrow
    simple_mode angled_mode angles motion_direction uploaded_image = inr (sc, msgs) ->
  exists laid,
    layout_forces repr_float forces directions labels colors simple_mode angled_mode angles
      = inr laid /\
    ((motion_arrow = false /\
      scene_arrows (prims sc) = map (fun l => (0, 0, lv_dx l, lv_dy l)) laid) \/
     (motion_arrow = true /\ exists u, direction_map motion_direction = Some u /\
      scene_arrows (prims sc) =
        app (map (fun l => (0, 0, lv_dx l, lv_dy l)) laid)
            [(fst (least_dense (points_of laid)), snd (least_dense (points_of laid)),
              0.3 * fst u, 0.3 * snd u)])).
Proof.
  intros until msgs; intros H.
  destruct (draw_fbd_inv _ _ _ _ _ _ _ _ _ _ _ _ _ _ _ H)
    as (laid & motion & Hl & Hm & -> & _).
  exists laid; split; [exact Hl|]; cbn [prims].
  rewrite !scene_arrows_app, scene_arrows_object, scene_arrows_forces; cbn [app].
  destruct (motion_arrows _ _ _ _ Hm) as [(Ha & ->) | (Ha & u & Hu & ->)].
  - left; split; [exact Ha|]. rewrite app_nil_r; reflexivity.
  - right; split; [exact Ha|]. exists u; split; [exact Hu|reflexivity].
Qed.

Lemma arrows_are_forces_then_motion_witness :
  exists sc msgs,
    draw_fbd (fun _ => "50.0") [Some 50; Some 30] ["Up"; "Left"] ["Normal"; "Friction"]
      ["#FF0000"; "#0000FF"] "Free Body Diagram" "" true false false [0; 0] "Right" None
      = inr (sc, msgs) /\
    exists laid,
      layout_forces (fun _ => "50.0") [Some 50; Some 30] ["Up"; "Left"]
        ["Normal"; "Friction"] ["#FF0000"; "#0000FF"] false false [0; 0] = inr laid /\
      ((true = false /\
        scene_arrows (prims sc) = map (fun l => (0, 0, lv_dx l, lv_dy l)) laid) \/
       (true = true /\ exists u, direction_map "Right" = Some u /\
        scene_arrows (prims sc) =
          app (map (fun l => (0, 0, lv_dx l, lv_dy l)) laid)
              [(fst (least_dense (points_of laid)), snd (least_dense (points_of laid)),
                0.3 * fst u, 0.3 * snd u)])).
Proof.
  assert (H : exists sc msgs,
    draw_fbd (fun _ => "50.0") [Some 50; Some 30] ["Up"; "Left"] ["Normal"; "Friction"]
      ["#FF0000"; "#0000FF"] "Free Body Diagram" "" true false false [0; 0] "Right" None
      = inr (sc, msgs)) by (do 2 eexists; run_render; reflexivity).
  destruct H as (sc & msgs & H); exists sc, msgs; split; [exact H|].
  exact (arrows_are_forces_then_motion _ _ _ _ _ _ _ _ _ _ _ _ _ sc msgs H).
Defined.

(** ** Unknown magnitudes *)

(** C1 (counterexample): no [ResultantUnavailable] signal.  A render whose
    only force has an unknown magnitude ([None], outside simple mode)
    completes normally: it returns a scene without any force arrow and
    emits no message. *)
Lemma unknown_force_renders_silently :
  exists sc,
    draw_fbd (fun _ => "") [None] ["Right"] ["Push"] ["#FF0000"] "Free Body Diagram" ""
      false false false [0] "Up" None = inr (sc, []) /\
    scene_arrows (prims sc) = [].
Proof.
  eexists; split; [run_render; reflexivity|].
  reflexivity.
Qed.

(** C1 (amended): the render has no resultant and no resultant-unavailable
    signal.  Outside simple mode a force of unknown magnitude ([None]) is
    skipped silently by the loop (no arrow, no label, no exception), and a
    successful render emits no message except those of loading the
    uploaded image. *)
Theorem unknown_magnitude_skipped_silently :
  (forall repr_float forces directions labels colors angled_mode angles i,
     nth_error forces i = Some None ->
     lay_force repr_float forces directions labels colors false angled_mode angles i
       = inr None) /\
  (forall repr_float forces directions labels colors title caption motion_arrow
     simple_mode angled_mode angles motion_direction uploaded_image sc msgs,
   draw_fbd repr_float forces directions labels colors title caption motion_arrow
     simple_mode angled_mode angles motion_direction uploaded_image = inr (sc, msgs) ->
   msgs = snd (object_prims uploaded_image)).
Proof.
  split.
  - intros until i; intros Hi.
    unfold lay_force, force_at, py_index; rewrite Hi; reflexivity.
  - intros until msgs; intros H.
    destruct (draw_fbd_inv _ _ _ _ _ _ _ _ _ _ _ _ _ _ _ H) as (_ & _ & _ & _ & _ & Hm).
    exact Hm.
Qed.

Lemma unknown_magnitude_skipped_silently_witness :
  lay_force (fun _ => "") [Some 20; None] ["Up"; "Right"] ["Normal"; "Push"]
    ["#FF0000"; "#0000FF"] false false [0; 0] 1 = inr None /\
  (exists sc msgs,
     draw_fbd (fun _ => "") [Some 20; None] ["Up"; "Right"] ["Normal"; "Push"]
       ["#FF0000"; "#0000FF"] "Free Body Diagram" "" false false false [0; 0] "Up"
       (Some Undecodable) = inr (sc, msgs) /\
     msgs = snd (object_prims (Some Undecodable))).
Proof.
  destruct unknown_magnitude_skipped_silently as [H1 H2].
  split; [apply H1; reflexivity|].
  assert (H : exists sc msgs,
     draw_fbd (fun _ => "") [Some 20; None] ["Up"; "Right"] ["Normal"; "Push"]
       ["#FF0000"; "#0000FF"] "Free Body Diagram" "" false false false [0; 0] "Up"
       (Some Undecodable) = inr (sc, msgs)) by (do 2 eexists; run_render; reflexivity).
  destruct H as (sc & msgs & H); exists sc, msgs; split; [exact H|].
  exact (H2 _ _ _ _ _ _ _ _ _ _ _ _ _ sc msgs H).
Defined.

(** ** Bad direction tokens *)

(** C5 (counterexample): a bad direction token aborts the whole render.
    With forces [1 N Up] and [2 N "Diagonal"] the render raises
    [KeyError('Diagonal')]; the valid force is not kept. *)
Lemma bad_direction_aborts_render :
  draw_fbd (fun _ => "") [Some 1; Some 2] ["Up"; "Diagonal"] ["Normal"; "Push"]
    ["#FF0000"; "#0000FF"] "Free Body Diagram" "" false false false [0; 0] "Up" None
    = inl (KeyError "Diagonal").
Proof. run_render; reflexivity. Qed.

(** C5 (amended): with symbolic directions, a force whose magnitude is used
    (known and positive, or any force in simple mode) and whose direction
    token is not a key of [direction_map] makes the whole render fail with
    an exception; no force is skipped with a warning. *)
Theorem bad_direction_fails_render : forall repr_float forces directions labels colors
    title caption motion_arrow simple_mode angles motion_direction uploaded_image i f d,
  (i < List.length forces)%nat ->
  force_at forces simple_mode i = inr (Some f) -> 0 < f ->
  nth_error directions i = Some d -> direction_map d = None ->
  exists e, draw_fbd repr_float forces directions labels colors title caption
              motion_arrow simple_mode false angles motion_direction uploaded_image = inl e.
Proof.
  intros until d; intros Hi Hf Hpos Hd Hbad.
  assert (Hl : lay_force repr_float forces directions labels colors simple_mode false
                 angles i = inl (KeyError d)).
  { unfold lay_force; rewrite Hf; cbn [bind].
    destruct (Rle_dec f 0); [lra|].
    unfold displacement, py_index; rewrite Hd; cbn [bind].
    unfold direction_lookup; rewrite Hbad; reflexivity. }
  destruct (collect_error _ (seq 0 (List.length forces)) i _ ltac:(apply in_seq; lia) Hl)
    as [e He].
  exists e; unfold draw_fbd, layout_forces; rewrite He; reflexivity.
Qed.

Lemma bad_direction_fails_render_witness :
  (1 < List.length [Some 1; Some 2])%nat /\
  force_at [Some 1; Some 2] false 1 = inr (Some 2) /\ 0 < 2 /\
  nth_error ["Up"; "Diagonal"] 1 = Some "Diagonal" /\ direction_map "Diagonal" = None /\
  exists e, draw_fbd (fun _ => "") [Some 1; Some 2] ["Up"; "Diagonal"] ["Normal"; "Push"]
    ["#FF0000"; "#0000FF"] "Free Body Diagram" "" false false false [0; 0] "Up" None
    = inl e.
Proof.
  split; [simpl; lia|]. split; [reflexivity|]. split; [lra|].
  split; [reflexivity|]. split; [reflexivity|].
  apply (bad_direction_fails_render _ _ _ _ _ _ _ _ _ _ _ _ 1 2 "Diagonal");
    [simpl; lia | reflexivity | lra | reflexivity | reflexivity].
Defined.

(** ** View bounds *)

Lemma scene_texts_app : forall ps qs,
  scene_texts (app ps qs) = app (scene_texts ps) (scene_texts qs).
Proof.
  induction ps as [|p ps IH]; intros qs; simpl; [reflexivity|].
  destruct (text_of p); rewrite IH; reflexivity.
Qed.

Lemma scene_texts_forces : forall laid,
  scene_texts (flat_map force_prims laid) =
  map (fun l => (lv_label_x l, lv_label_y l)) laid.
Proof.
  induction laid as [|l laid IH]; simpl; [reflexivity|].
  rewrite IH; reflexivity.
Qed.

Lemma scene_texts_object : forall up, scene_texts (fst (object_prims up)) = [].
Proof.
  intros [f|]; simpl; [|reflexivity].
  destruct (preprocess_image f) as [[img|] msgs]; reflexivity.
Qed.

(** In simple mode each drawn force and its label stay within [0.8] of
    the origin on each axis. *)
Lemma simple_layout_small : forall repr_float forces directions labels colors
    angled_mode angles laid,
  layout_forces repr_float forces directions labels colors true angled_mode angles
    = inr laid ->
  Forall (fun l => -0.5 <= lv_dx l <= 0.5 /\ -0.5 <= lv_dy l <= 0.5 /\
                   -0.8 <= lv_label_x l <= 0.8 /\ -0.8 <= lv_label_y l <= 0.8) laid.
Proof.
  intros until laid; intros H; apply Forall_forall; intros l Hl.
  destruct (layout_sound _ _ _ _ _ _ _ _ laid H l Hl) as (i & _ & Hi).
  pose proof (simple_disp_norm _ _ _ _ _ _ _ _ _ Hi) as Hn.
  destruct (lay_force_some _ _ _ _ _ _ _ _ i l Hi)
    as (f & label & _ & _ & _ & _ & Hx & Hy & _).
  assert (Hdx : -0.5 <= lv_dx l <= 0.5) by (split; nra).
  assert (Hdy : -0.5 <= lv_dy l <= 0.5) by (split; nra).
  destruct (label_offset_cases (lv_dx l)) as [Hx1 Hx2].
  destruct (label_offset_cases (lv_dy l)) as [Hy1 Hy2].
  rewrite Hx, Hy.
  destruct (Rle_lt_dec 0 (lv_dx l)) as [Hcx|Hcx];
    [rewrite (Hx1 Hcx) | rewrite (Hx2 Hcx)];
  (destruct (Rle_lt_dec 0 (lv_dy l)) as [Hcy|Hcy];
    [rewrite (Hy1 Hcy) | rewrite (Hy2 Hcy)]); lra.
Qed.

(** C9 (counterexample): the view does not grow with the vectors.  A
    single [10 N Right] force is drawn with its tip at [x = 5], beyond the
    right edge [1.5] of the view. *)
Lemma large_force_clipped :
  exists sc msgs,
    draw_fbd (fun _ => "10.0") [Some 10] ["Right"] ["Push"] ["#FF0000"]
      "Free Body Diagram" "" false false false [0] "Up" None = inr (sc, msgs) /\
    xlim sc = (-1.5, 1.5) /\
    exists x y dx dy, In (x, y, dx, dy) (scene_arrows (prims sc)) /\ snd (xlim sc) < x + dx.
Proof.
  do 2 eexists; split; [run_render; reflexivity|].
  split; [reflexivity|].
  do 4 eexists; split.
  - cbn [prims scene_arrows arrow_of app flat_map force_prims default_rect
         lv_dx lv_dy]; left; reflexivity.
  - cbn [xlim snd fst]; lra.
Qed.

(** C9 (amended): the view bounds are the fixed square [[-1.5, 1.5] x
    [-1.5, 1.5]] for every render, independent of the vectors; in simple
    mode every arrow (its start and its tip) and every text anchor lies
    inside it. *)
Theorem view_bounds_fixed : forall repr_float forces directions labels colors
    title caption motion_arrow simple_mode angled_mode angles motion_direction
    uploaded_image sc msgs,
  draw_fbd repr_float forces directions labels colors title caption motion_arrow
    simple_mode angled_mode angles motion_direction uploaded_image = inr (sc, msgs) ->
  xlim sc = (-1.5, 1.5) /\ ylim sc = (-1.5, 1.5) /\
  (simple_mode = true ->
   Forall (fun a : R * R * R * R => let '(x, y, dx, dy) := a in
             -1.5 <= x <= 1.5 /\ -1.5 <= y <= 1.5 /\
             -1.5 <= x + dx <= 1.5 /\ -1.5 <= y + dy <= 1.5)
          (scene_arrows (prims sc)) /\
   Forall (fun p : R * R => -1.5 <= fst p <= 1.5 /\ -1.5 <= snd p <= 1.5)
          (scene_texts (prims sc))).
Proof.
  intros until msgs; intros H.
  destruct (draw_fbd_inv _ _ _ _ _ _ _ _ _ _ _ _ _ _ _ H)
    as (laid & motion & Hl & Hm & -> & _).
  cbn [xlim ylim prims]; split; [reflexivity|]; split; [reflexivity|].
  intros ->.
  pose proof (simple_layout_small _ _ _ _ _ _ _ laid Hl) as Hsmall.
  pose proof (grid_bounds _ (least_dense_in_grid (points_of laid))) as Hb.
  rewrite !scene_arrows_app, scene_arrows_object, scene_arrows_forces,
          !scene_texts_app, scene_texts_object, scene_texts_forces; cbn [app].
  destruct (motion_arrows _ _ _ _ Hm) as [(_ & ->) | (_ & u & Hu & ->)];
    cbn [scene_arrows scene_texts arrow_of text_of]; rewrite ?app_nil_r.
  - split; apply Forall_map; eapply Forall_impl; try exact Hsmall;
      intros l Hs; cbn [fst snd]; lra.
  - split; apply Forall_app; split.
    + apply Forall_map; eapply Forall_impl; [|exact Hsmall]; intros l Hs; lra.
    + constructor; [|constructor].
      destruct (direction_map_cases _ _ Hu) as [-> | [-> | [-> | ->]]]; cbn [fst snd]; lra.
    + apply Forall_map; eapply Forall_impl; [|exact Hsmall]; intros l Hs; cbn [fst snd]; lra.
    + constructor; [|constructor]; cbn [fst snd].
      destruct (direction_map_cases _ _ Hu) as [-> | [-> | [-> | ->]]]; cbn [fst snd]; lra.
Qed.

Lemma view_bounds_fixed_witness :
  exists sc msgs,
    draw_fbd (fun _ => "1") [Some 40; None] ["Left"; "Down"] ["Tension"; "Weight"]
      ["#FF0000"; "#0000FF"] "Free Body Diagram" "" true true false [0; 0] "Left" None
      = inr (sc, msgs) /\
    xlim sc = (-1.5, 1.5) /\ ylim sc = (-1.5, 1.5) /\
    (true = true ->
     Forall (fun a : R * R * R * R => let '(x, y, dx, dy) := a in
               -1.5 <= x <= 1.5 /\ -1.5 <= y <= 1.5 /\
               -1.5 <= x + dx <= 1.5 /\ -1.5 <= y + dy <= 1.5)
            (scene_arrows (prims sc)) /\
     Forall (fun p : R * R => -1.5 <= fst p <= 1.5 /\ -1.5 <= snd p <= 1.5)
            (scene_texts (prims sc))).
Proof.
  assert (H : exists sc msgs,
    draw_fbd (fun _ => "1") [Some 40; None] ["Left"; "Down"] ["Tension"; "Weight"]
      ["#FF0000"; "#0000FF"] "Free Body Diagram" "" true true false [0; 0] "Left" None
      = inr (sc, msgs)) by (do 2 eexists; run_render; reflexivity).
  destruct H as (sc & msgs & H); exists sc, msgs; split; [exact H|].
  exact (view_bounds_fixed _ _ _ _ _ _ _ _ _ _ _ _ _ sc msgs H).
Defined.

Lemma least_dense_first_min_witness :
  List.length grid = 100%nat /\
  (forall a b x y, nth_error grid_x a = Some x -> nth_error grid_y b = Some y ->
     nth_error grid (a * 10 + b) = Some (x, y)) /\
  (forall g, In g grid -> -1 <= fst g <= 1 /\ -1 <= snd g <= 1) /\
  (exists i, nth_error grid i = Some (least_dense [(0, 0.5); (-0.5, 0)]) /\
    (forall g, In g grid ->
       density [(0, 0.5); (-0.5, 0)] (least_dense [(0, 0.5); (-0.5, 0)])
         <= density [(0, 0.5); (-0.5, 0)] g) /\
    (forall j g, (j < i)%nat -> nth_error grid j = Some g ->
       density [(0, 0.5); (-0.5, 0)] (least_dense [(0, 0.5); (-0.5, 0)])
         < density [(0, 0.5); (-0.5, 0)] g)).
Proof. exact (least_dense_first_min [(0, 0.5); (-0.5, 0)]). Defined.

(** * Further properties of the code *)

(** ** Parsing a magnitude typed in [main] *)



Lemma float_of_decimal_nonneg : forall s x, float_of_decimal s = Some x -> 0 <= x.
Proof.
  unfold float_of_decimal; intros s x H.
  destruct (split_dot (py_strip s)) as [ip [fp|]].
  - destruct (_ && _)%bool; [|discriminate].
    injection H as <-.
    pose proof (pos_INR (digits_value 0 ip)).
    pose proof (pos_INR (digits_value 0 fp)).
    assert (0 < 10 ^ String.length fp) by (apply pow_lt; lra).
    assert (0 <= INR (digits_value 0 fp) / 10 ^ String.length fp)
      by (unfold Rdiv; apply Rmult_le_pos; [lra | apply Rlt_le, Rinv_0_lt_compat; lra]).
    lra.
  - destruct (py_isdigit ip); [|discriminate].
    injection H as <-; apply pos_INR.
Qed.

Lemma lstrip_keeps : forall c s,
  is_py_space c = false -> In c (list_ascii_of_string s) ->
  In c (list_ascii_of_string (lstrip s)).
Proof.
  intros c; induction s as [|c' s IH]; simpl; intros Hc Hin; [contradiction|].
  destruct (is_py_space c') eqn:Hc'; [|exact Hin].
  destruct Hin as [<-|Hin]; [congruence|auto].
Qed.

Lemma rstrip_keeps : forall c s,
  is_py_space c = false -> In c (list_ascii_of_string s) ->
  In c (list_ascii_of_string (rstrip s)).
Proof.
  intros c; induction s as [|c' s IH]; simpl; intros Hc Hin; [contradiction|].
  destruct (rstrip s) as [|c'' r] eqn:Hr.
  - destruct Hin as [<-|Hin].
    + rewrite Hc; simpl; auto.
    + specialize (IH Hc Hin); simpl in IH; contradiction.
  - destruct Hin as [<-|Hin]; [left; reflexivity|].
    right; exact (IH Hc Hin).
Qed.

Lemma replace_first_dot_keeps : forall c s,
  c <> "."%char -> In c (list_ascii_of_string s) ->
  In c (list_ascii_of_string (replace_first_dot s)).
Proof.
  intros c; induction s as [|c' s IH]; simpl; intros Hc Hin; [contradiction|].
  destruct (Ascii.eqb c' "."%char) eqn:Hd.
  - apply Ascii.eqb_eq in Hd; subst c'.
    destruct Hin as [<-|Hin]; [congruence|exact Hin].
  - destruct Hin as [<-|Hin]; simpl; auto.
Qed.

Lemma all_digits_in : forall c s,
  all_digits s = true -> In c (list_ascii_of_string s) -> is_ascii_digit c = true.
Proof.
  intros c; induction s as [|c' s IH]; simpl; intros H Hin; [contradiction|].
  apply Bool.andb_true_iff in H as [H1 H2].
  destruct Hin as [<-|Hin]; auto.
Qed.

Lemma count_lstrip : forall c s,
  is_py_space c = false -> count_char c (lstrip s) = count_char c s.
Proof.
  intros c; induction s as [|c' s IH]; simpl; intros Hc; [reflexivity|].
  destruct (is_py_space c') eqn:Hc'; [|reflexivity].
  rewrite IH by exact Hc.
  destruct (Ascii.eqb c' c) eqn:E; [apply Ascii.eqb_eq in E; congruence|reflexivity].
Qed.

Lemma count_rstrip : forall c s,
  is_py_space c = false -> count_char c (rstrip s) = count_char c s.
Proof.
  intros c; induction s as [|c' s IH]; simpl; intros Hc; [reflexivity|].
  specialize (IH Hc).
  destruct (rstrip s) as [|c'' r] eqn:Hr; simpl in IH.
  - destruct (is_py_space c') eqn:Hc'; simpl.
    + destruct (Ascii.eqb c' c) eqn:E; [apply Ascii.eqb_eq in E; congruence|].
      rewrite <- IH; reflexivity.
    + rewrite <- IH; destruct (Ascii.eqb c' c); reflexivity.
  - simpl; rewrite IH; reflexivity.
Qed.

Lemma count_replace_first_dot : forall s,
  (1 <= count_char "."%char s)%nat ->
  count_char "."%char (replace_first_dot s) = (count_char "."%char s - 1)%nat.
Proof.
  induction s as [|c s IH]; simpl; intros H; [lia|].
  destruct (Ascii.eqb c "."%char) eqn:E; simpl; [lia|].
  rewrite E; apply IH; exact H.
Qed.

Lemma all_digits_no_dot : forall s,
  all_digits s = true -> count_char "."%char s = 0%nat.
Proof.
  induction s as [|c s IH]; simpl; intros H; [reflexivity|].
  apply Bool.andb_true_iff in H as [H1 H2].
  destruct (Ascii.eqb c "."%char) eqn:E.
  - apply Ascii.eqb_eq in E; subst c; discriminate.
  - apply IH; exact H2.
Qed.

Lemma py_isdigit_true : forall t,
  py_isdigit t = true <-> t <> EmptyString /\ all_digits t = true.
Proof.
  intros [|c t]; simpl; split.
  - discriminate.
  - intros [H _]; congruence.
  - intros H; split; [discriminate|exact H].
  - intros [_ H]; exact H.
Qed.

(** X1: a magnitude read from the text input is never negative: the
    parser of [main] accepts no sign, so every force it yields is [>= 0]. *)
Theorem parse_magnitude_nonneg : forall s x,
  parse_magnitude s = Some x -> 0 <= x.
Proof.
  unfold parse_magnitude; intros s x H.
  destruct (py_isdigit _); [|discriminate].
  exact (float_of_decimal_nonneg s x H).
Qed.

Lemma parse_magnitude_nonneg_witness :
  exists x, parse_magnitude "2.5" = Some x /\ 0 <= x.
Proof.
  eexists; split; [vm_compute; reflexivity|].
  apply (parse_magnitude_nonneg "2.5"); vm_compute; reflexivity.
Defined.


(** X3: a character other than a digit, a ['.'] or whitespace anywhere in
    the input (a sign, an exponent, a comma, a letter of ["nan"] or
    ["inf"]) makes the magnitude [None]: the force is not drawn. *)
Theorem parse_magnitude_rejects_other_char : forall c s,
  is_ascii_digit c = false -> c <> "."%char -> is_py_space c = false ->
  In c (list_ascii_of_string s) -> parse_magnitude s = None.
Proof.
  intros c s Hdig Hdot Hsp Hin; unfold parse_magnitude.
  destruct (py_isdigit (replace_first_dot (py_strip s))) eqn:G; [|reflexivity].
  exfalso; apply py_isdigit_true in G as [_ G].
  unfold py_strip in G.
  assert (Hin' := replace_first_dot_keeps c _ Hdot
                    (rstrip_keeps c _ Hsp (lstrip_keeps c _ Hsp Hin))).
  rewrite (all_digits_in c _ G Hin') in Hdig; discriminate.
Qed.

Lemma parse_magnitude_rejects_other_char_witness :
  is_ascii_digit "-"%char = false /\ "-"%char <> "."%char /\
  is_py_space "-"%char = false /\ In "-"%char (list_ascii_of_string "-5") /\
  parse_magnitude "-5" = None.
Proof.
  assert (Hd : is_ascii_digit "-"%char = false) by reflexivity.
  assert (Hn : "-"%char <> "."%char) by discriminate.
  assert (Hs : is_py_space "-"%char = false) by reflexivity.
  assert (Hi : In "-"%char (list_ascii_of_string "-5")) by (simpl; left; reflexivity).
  refine (conj Hd (conj Hn (conj Hs (conj Hi _)))).
  exact (parse_magnitude_rejects_other_char "-"%char "-5" Hd Hn Hs Hi).
Defined.

(** X4: an input with two or more ['.'] gives no magnitude. *)
Theorem parse_magnitude_rejects_two_dots : forall s,
  (2 <= count_char "."%char s)%nat -> parse_magnitude s = None.
Proof.
  intros s H; unfold parse_magnitude.
  destruct (py_isdigit (replace_first_dot (py_strip s))) eqn:G; [|reflexivity].
  exfalso; apply py_isdigit_true in G as [_ G].
  apply all_digits_no_dot in G.
  assert (Hsp : is_py_space "."%char = false) by reflexivity.
  unfold py_strip in G.
  rewrite count_replace_first_dot, count_rstrip, count_lstrip in G by
    (try rewrite count_rstrip, count_lstrip by exact Hsp; auto; lia).
  lia.
Qed.

Lemma parse_magnitude_rejects_two_dots_witness :
  (2 <= count_char "."%char "1.2.3")%nat /\ parse_magnitude "1.2.3" = None.
Proof.
  assert (H : (2 <= count_char "."%char "1.2.3")%nat) by (vm_compute; lia).
  split; [exact H|].
  exact (parse_magnitude_rejects_two_dots "1.2.3" H).
Defined.

(** ** When [main] and [draw_fbd] cannot raise *)










(** ** The uploaded image *)

(** X6: a file PIL cannot open ends in the default diagram: the render
    fails or succeeds exactly as without an upload, with the same figure,
    and [st.error] then [st.warning] are shown. *)
Theorem undecodable_upload_default_diagram : forall repr_float forces directions labels
    colors title caption motion_arrow simple_mode angled_mode angles motion_direction,
  draw_fbd repr_float forces directions labels colors title caption motion_arrow
    simple_mode angled_mode angles motion_direction (Some Undecodable) =
  match draw_fbd repr_float forces directions labels colors title caption motion_arrow
          simple_mode angled_mode angles motion_direction None with
  | inl e => inl e
  | inr (sc, _) =>
      inr (sc, [StError "Failed to load the image. Please upload a valid image file.";
                StWarning "Using default diagram since image failed to load."])
  end.
Proof.
  intros; unfold draw_fbd.
  destruct (layout_forces _ _ _ _ _ _ _ _) as [e|laid]; cbn [bind]; [reflexivity|].
  destruct (motion_prims _ _ _) as [e|ps]; cbn [bind]; reflexivity.
Qed.

(** X7: the upload never changes the force drawing: with or without an
    image (decodable, resized or not) the render fails with the same
    exception or succeeds with the same arrows, the same texts, the same
    title and caption and the same axis limits. *)
Theorem upload_keeps_forces : forall repr_float forces directions labels colors fig_title
    fig_caption motion_arrow simple_mode angled_mode angles motion_direction uploaded_image,
  match draw_fbd repr_float forces directions labels colors fig_title fig_caption motion_arrow
          simple_mode angled_mode angles motion_direction uploaded_image,
        draw_fbd repr_float forces directions labels colors fig_title fig_caption motion_arrow
          simple_mode angled_mode angles motion_direction None with
  | inl e1, inl e2 => e1 = e2
  | inr (sc1, _), inr (sc2, _) =>
      scene_arrows (prims sc1) = scene_arrows (prims sc2) /\
      scene_texts (prims sc1) = scene_texts (prims sc2) /\
      title sc1 = title sc2 /\ caption sc1 = caption sc2 /\
      xlim sc1 = xlim sc2 /\ ylim sc1 = ylim sc2
  | _, _ => False
  end.
Proof.
  intros; unfold draw_fbd.
  destruct (layout_forces _ _ _ _ _ _ _ _) as [e|laid]; cbn [bind]; [reflexivity|].
  destruct (motion_prims _ _ _) as [e|ps]; cbn [bind]; [reflexivity|].
  unfold ret; cbn iota beta; cbn [prims title caption xlim ylim].
  rewrite !scene_arrows_app, !scene_texts_app, scene_arrows_object, scene_texts_object.
  cbn [object_prims fst scene_arrows scene_texts arrow_of text_of default_rect app].
  repeat split.
Qed.

(** ** The least dense position for one occupied point *)



(** ** The motion arrow *)

(** X9: the motion arrow is never clipped: it starts at a grid point in
    [[-1, 1] x [-1, 1]] and, being [0.3] long along an axis, ends within
    [[-1.3, 1.3] x [-1.3, 1.3]], inside the fixed view
    [[-1.5, 1.5] x [-1.5, 1.5]]; it is the last arrow drawn. *)
Theorem motion_arrow_inside_view : forall repr_float forces directions labels colors
    fig_title fig_caption motion_arrow simple_mode angled_mode angles motion_direction
    uploaded_image sc msgs,
  draw_fbd repr_float forces directions labels colors fig_title fig_caption motion_arrow
    simple_mode angled_mode angles motion_direction uploaded_image = inr (sc, msgs) ->
  motion_arrow = true ->
  exists pre x y dx dy,
    scene_arrows (prims sc) = app pre [(x, y, dx, dy)] /\
    -1 <= x <= 1 /\ -1 <= y <= 1 /\
    -1.3 <= x + dx <= 1.3 /\ -1.3 <= y + dy <= 1.3 /\
    xlim sc = (-1.5, 1.5) /\ ylim sc = (-1.5, 1.5).
Proof.
  intros until msgs; intros H Hm.
  destruct (draw_fbd_inv _ _ _ _ _ _ _ _ _ _ _ _ _ _ _ H)
    as (laid & motion & _ & Hmo & -> & _).
  destruct (motion_arrows _ _ _ _ Hmo) as [[Hf _] | [_ (u & Hu & ->)]]; [congruence|].
  destruct (grid_bounds _ (least_dense_in_grid (points_of laid))) as [Hx Hy].
  exists (map (fun l => (0, 0, lv_dx l, lv_dy l)) laid),
    (fst (least_dense (points_of laid))), (snd (least_dense (points_of laid))),
    (0.3 * fst u), (0.3 * snd u).
  cbn [prims xlim ylim].
  rewrite !scene_arrows_app, scene_arrows_object, scene_arrows_forces.
  cbn [scene_arrows arrow_of app].
  split; [reflexivity|].
  destruct (direction_map_cases _ _ Hu) as [-> | [-> | [-> | ->]]]; cbn [fst snd];
    repeat split; lra.
Qed.

Lemma motion_arrow_inside_view_witness :
  exists sc msgs,
    draw_fbd (fun _ => "40.0") [Some 40] ["Right"] ["Push"] ["#FF0000"]
      "Free Body Diagram" "" true false false [0] "Left" None = inr (sc, msgs) /\
    true = true /\
    exists pre x y dx dy,
      scene_arrows (prims sc) = app pre [(x, y, dx, dy)] /\
      -1 <= x <= 1 /\ -1 <= y <= 1 /\
      -1.3 <= x + dx <= 1.3 /\ -1.3 <= y + dy <= 1.3 /\
      xlim sc = (-1.5, 1.5) /\ ylim sc = (-1.5, 1.5).
Proof.
  assert (H : exists sc msgs,
    draw_fbd (fun _ => "40.0") [Some 40] ["Right"] ["Push"] ["#FF0000"]
      "Free Body Diagram" "" true false false [0] "Left" None = inr (sc, msgs))
    by (do 2 eexists; run_render; reflexivity).
  destruct H as (sc & msgs & H); exists sc, msgs; split; [exact H|]; split; [reflexivity|].
  exact (motion_arrow_inside_view _ _ _ _ _ _ _ _ _ _ _ _ _ sc msgs H eq_refl).
Defined.

(** ** How many forces are drawn *)

Lemma collect_length {A} (f : nat -> res (option A)) : forall idx out,
  collect f idx = inr out ->
  List.length out =
  List.length (filter (fun i => match f i with inr (Some _) => true | _ => false end) idx).
Proof.
  induction idx as [|i idx IH]; simpl; intros out H.
  - inversion H; reflexivity.
  - destruct (f i) as [e|[a|]] eqn:Hf; simpl in H; [discriminate| |];
      destruct (collect f idx) as [e|rest] eqn:Hr; simpl in H; try discriminate;
      unfold ret in H; inversion H; subst; simpl; rewrite (IH _ eq_refl); reflexivity.
Qed.


Lemma map_nth_seq {A} : forall (l : list A) d,
  map (fun i => nth i l d) (seq 0 (List.length l)) = l.
Proof.
  induction l as [|a l IH]; intros d; simpl; [reflexivity|].
  rewrite <- seq_shift, map_map; simpl; rewrite IH; reflexivity.
Qed.

Lemma count_positive_seq : forall forces,
  count_positive forces =
  List.length (filter (fun i => match nth i forces None with
                               | Some f => if Rle_dec f 0 then false else true
                               | None => false
                               end) (seq 0 (List.length forces))).
Proof.
  intros forces; unfold count_positive.
  match goal with
  | |- List.length (filter ?P forces) = _ =>
      transitivity (List.length (filter P (map (fun i => nth i forces None)
                                               (seq 0 (List.length forces)))))
  end.
  - rewrite map_nth_seq; reflexivity.
  - rewrite filter_map_swap, length_map; reflexivity.
Qed.

Lemma layout_count_positive : forall repr_float forces directions labels colors
    angled_mode angles laid,
  layout_forces repr_float forces directions labels colors false angled_mode angles
    = inr laid ->
  List.length laid = count_positive forces.
Proof.
  intros until laid; intros H.
  rewrite (collect_length _ _ _ H), count_positive_seq.
  f_equal; apply filter_ext_in; intros i Hi.
  destruct (collect_runs_all _ _ _ H i Hi) as [o Ho]; rewrite Ho.
  apply in_seq in Hi.
  unfold lay_force, force_at, py_index in Ho; cbn [bind] in Ho.
  destruct (nth_error forces i) as [fo|] eqn:Ef;
    [|apply nth_error_None in Ef; lia].
  rewrite (nth_error_nth forces i None Ef).
  cbn [bind ret] in Ho.
  destruct fo as [f|]; [|inversion Ho; reflexivity].
  destruct (Rle_dec f 0); [inversion Ho; reflexivity|].
  destruct (displacement _ _ _ _ _); cbn [bind] in Ho; [discriminate|].
  destruct (nth_error colors i); cbn [bind] in Ho; [|discriminate].
  destruct (nth_error labels i); cbn [bind] in Ho; [|discriminate].
  inversion Ho; reflexivity.
Qed.

(** X10: outside simple mode a successful render draws one arrow per
    force with a known positive magnitude (unknown, zero and negative
    magnitudes are skipped), plus the motion arrow when it is enabled. *)
Theorem drawn_arrow_count : forall repr_float forces directions labels colors
    fig_title fig_caption motion_arrow angled_mode angles motion_direction
    uploaded_image sc msgs,
  draw_fbd repr_float forces directions labels colors fig_title fig_caption motion_arrow
    false angled_mode angles motion_direction uploaded_image = inr (sc, msgs) ->
  List.length (scene_arrows (prims sc)) =
  (count_positive forces + (if motion_arrow then 1 else 0))%nat.
Proof.
  intros until msgs; intros H.
  destruct (draw_fbd_inv _ _ _ _ _ _ _ _ _ _ _ _ _ _ _ H)
    as (laid & motion & Hl & Hmo & -> & _).
  cbn [prims].
  rewrite !scene_arrows_app, scene_arrows_object, scene_arrows_forces.
  rewrite <- (layout_count_positive _ _ _ _ _ _ _ _ Hl).
  destruct (motion_arrows _ _ _ _ Hmo) as [[-> ->] | [-> (u & _ & ->)]];
    cbn [scene_arrows arrow_of app]; rewrite length_app, length_map;
    cbn [List.length]; lia.
Qed.

Lemma drawn_arrow_count_witness :
  exists sc msgs,
    draw_fbd (fun _ => "7.0") [Some 7; None; Some 0; Some (-2); Some 3]
      ["Up"; "Down"; "Left"; "Right"; "Left"] ["A"; "B"; "C"; "D"; "E"]
      ["#FF0000"; "#0000FF"; "#00FF00"; "#FFA500"; "#800080"]
      "Free Body Diagram" "" true false false [0; 0; 0; 0; 0] "Up" None
      = inr (sc, msgs) /\
    List.length (scene_arrows (prims sc)) =
    Nat.add (count_positive [Some 7; None; Some 0; Some (-2); Some 3]) 1.
Proof.
  assert (H : exists sc msgs,
    draw_fbd (fun _ => "7.0") [Some 7; None; Some 0; Some (-2); Some 3]
      ["Up"; "Down"; "Left"; "Right"; "Left"] ["A"; "B"; "C"; "D"; "E"]
      ["#FF0000"; "#0000FF"; "#00FF00"; "#FFA500"; "#800080"]
      "Free Body Diagram" "" true false false [0; 0; 0; 0; 0] "Up" None
      = inr (sc, msgs)) by (do 2 eexists; run_render; reflexivity).
  destruct H as (sc & msgs & H); exists sc, msgs; split; [exact H|].
  exact (drawn_arrow_count _ _ _ _ _ _ _ true _ _ _ _ sc msgs H).
Defined.

(** ** Widgets the current mode hides *)

(** X11: [main] reads only the widgets the current mode shows: two sets
    of inputs that agree on the labels, the colours, the magnitudes
    (outside simple mode), the directions (outside angled mode) and the
    angles (in angled mode) give the same render, whatever the hidden
    widgets hold. *)
Theorem main_ignores_hidden_widgets : forall repr_float fig_title fig_caption
    uploaded_image simple_mode angled_mode motion_arrow motion_direction ws ws',
  Forall2 (fun w w' =>
    (simple_mode = false -> fi_magnitude w = fi_magnitude w') /\
    (angled_mode = false -> fi_direction w = fi_direction w') /\
    (angled_mode = true -> fi_angle w = fi_angle w') /\
    fi_label w = fi_label w' /\ fi_color w = fi_color w') ws ws' ->
  main_generate repr_float fig_title fig_caption uploaded_image simple_mode angled_mode
    motion_arrow motion_direction ws =
  main_generate repr_float fig_title fig_caption uploaded_image simple_mode angled_mode
    motion_arrow motion_direction ws'.
Proof.
  intros until ws'; intros H.
  unfold main_generate.
  replace (main_force_lists simple_mode angled_mode ws')
    with (main_force_lists simple_mode angled_mode ws); [reflexivity|].
  induction H as [|w w' ws ws' (Hm & Hd & Ha & Hl & Hc) _ IH]; [reflexivity|].
  simpl; rewrite Hc, Hl, IH.
  destruct simple_mode, angled_mode;
    try rewrite (Hm eq_refl); try rewrite (Hd eq_refl); try rewrite (Ha eq_refl);
    reflexivity.
Qed.

Lemma main_ignores_hidden_widgets_witness :
  Forall2 (fun w w' =>
    (true = false -> fi_magnitude w = fi_magnitude w') /\
    (false = false -> fi_direction w = fi_direction w') /\
    (false = true -> fi_angle w = fi_angle w') /\
    fi_label w = fi_label w' /\ fi_color w = fi_color w')
    [mkForceInputs "5" "Up" 0 "Normal" "Blue"]
    [mkForceInputs "banana" "Up" 45 "Normal" "Blue"] /\
  main_generate (fun _ => "1") "Free Body Diagram" "" None true false false "Up"
    [mkForceInputs "5" "Up" 0 "Normal" "Blue"] =
  main_generate (fun _ => "1") "Free Body Diagram" "" None true false false "Up"
    [mkForceInputs "banana" "Up" 45 "Normal" "Blue"].
Proof.
  assert (H : Forall2 (fun w w' =>
    (true = false -> fi_magnitude w = fi_magnitude w') /\
    (false = false -> fi_direction w = fi_direction w') /\
    (false = true -> fi_angle w = fi_angle w') /\
    fi_label w = fi_label w' /\ fi_color w = fi_color w')
    [mkForceInputs "5" "Up" 0 "Normal" "Blue"]
    [mkForceInputs "banana" "Up" 45 "Normal" "Blue"]).
  { constructor; [|constructor].
    cbn [fi_magnitude fi_direction fi_angle fi_label fi_color].
    repeat split; intros; first [discriminate | reflexivity]. }
  split; [exact H|].
  exact (main_ignores_hidden_widgets _ _ _ _ true false false "Up" _ _ H).
Defined.

(** ** Angles and symbolic directions *)



